(** * configargs.h of the GCC 14.2.0 plugin headers (armv7-alpine-linux-musleabihf)

    The header declares three [static const] objects and nothing else:
    two character arrays initialised from string literals and one array
    of (name, value) structures.  This development embeds the three
    objects, the C reading of them (indexing, scanning to the NUL
    terminator) and states the properties of the recorded data. *)

From Stdlib Require Import Bool Ascii String List ZArith Lia.
Import ListNotations.

Open Scope string_scope.

(** ** C character arrays *)

(** The terminating character that C appends to every string literal. *)
Definition NUL : ascii := Ascii.zero.

(** [static const char x[] = "lit";] : an array of [strlen lit + 1]
    characters, the characters of the literal followed by NUL. *)
Definition char_array (lit : string) : list ascii :=
  list_ascii_of_string lit ++ [NUL].

(** [a[i]] for an integer index; [None] stands for an access outside the
    object. *)
Definition index {A : Type} (a : list A) (i : Z) : option A :=
  if (i <? 0)%Z then None else nth_error a (Z.to_nat i).

(** [sizeof a / sizeof a[0]]. *)
Definition array_size {A : Type} (a : list A) : Z := Z.of_nat (List.length a).

(** [strlen]: scan from the first element to the first NUL.  [None] when
    the scan leaves the array without meeting one. *)
Fixpoint strlen (a : list ascii) : option nat :=
  match a with
  | [] => None
  | c :: rest => if Ascii.eqb c NUL then Some 0 else option_map S (strlen rest)
  end.

(** The text a reader of the array sees: the characters before the first
    NUL. *)
Fixpoint c_string (a : list ascii) : string :=
  match a with
  | [] => EmptyString
  | c :: rest => if Ascii.eqb c NUL then EmptyString else String c (c_string rest)
  end.

(** The last element of the array is NUL. *)
Definition null_terminated (a : list ascii) : Prop :=
  index a (array_size a - 1) = Some NUL.

(** A literal holds no NUL of its own. *)
Fixpoint no_nul (s : string) : bool :=
  match s with
  | EmptyString => true
  | String c rest => negb (Ascii.eqb c NUL) && no_nul rest
  end.

(** ** The three objects of configargs.h *)

Definition configuration_arguments : list ascii :=
  char_array "/home/buildozer/aports/main/gcc/src/gcc-14.2.0/configure --prefix=/usr --mandir=/usr/share/man --infodir=/usr/share/info --build=armv7-alpine-linux-musleabihf --host=armv7-alpine-linux-musleabihf --target=armv7-alpine-linux-musleabihf --enable-checking=release --disable-cet --disable-fixed-point --disable-libstdcxx-pch --disable-multilib --disable-nls --disable-werror --disable-symvers --enable-__cxa_atexit --enable-default-pie --enable-default-ssp --enable-languages=c,c++,objc,go,fortran,ada --enable-link-serialization=2 --enable-linker-build-id --with-arch=armv7-a --with-tune=generic-armv7-a --with-fpu=vfpv3-d16 --with-float=hard --with-abi=aapcs-linux --with-mode=thumb --disable-libquadmath --disable-libssp --disable-libsanitizer --enable-shared --enable-threads --enable-tls --disable-libitm --with-bugurl=https://gitlab.alpinelinux.org/alpine/aports/-/issues --with-system-zlib --with-linker-hash-style=gnu --with-pkgversion='Alpine 14.2.0'".

Definition thread_model : list ascii := char_array "posix".

(** [struct { const char *name, *value; }]: both members point to string
    literals, represented by their text. *)
Record option_entry : Set := mk_option { name : string; value : string }.

Definition configure_default_options : list option_entry :=
  [ mk_option "abi" "aapcs-linux"; mk_option "cpu" "arm10e";
    mk_option "arch" "armv7-a"; mk_option "tune" "generic-armv7-a";
    mk_option "float" "hard"; mk_option "mode" "thumb";
    mk_option "fpu" "vfpv3-d16"; mk_option "tls" "gnu" ].

(** ** Reading the objects *)

(** The program image: the storage of the three objects. *)
Record image : Type := mk_image {
  img_configuration_arguments : list ascii;
  img_thread_model : list ascii;
  img_configure_default_options : list option_entry
}.

Definition loaded_image : image :=
  mk_image configuration_arguments thread_model configure_default_options.

(** The objects are [const]: the accesses C admits on them are reads of
    one element. *)
Inductive access : Set :=
| ReadConfigurationArguments (i : Z)
| ReadThreadModel (i : Z)
| ReadOptionName (i : Z)
| ReadOptionValue (i : Z).

Inductive read_result : Set :=
| Char (c : ascii)
| Text (s : string).

Definition read (m : image) (a : access) : option read_result :=
  match a with
  | ReadConfigurationArguments i =>
      option_map Char (index (img_configuration_arguments m) i)
  | ReadThreadModel i =>
      option_map Char (index (img_thread_model m) i)
  | ReadOptionName i =>
      option_map (fun e => Text (name e)) (index (img_configure_default_options m) i)
  | ReadOptionValue i =>
      option_map (fun e => Text (value e)) (index (img_configure_default_options m) i)
  end.

(** An access is within the object it names. *)
Definition in_bounds (m : image) (a : access) : Prop :=
  match a with
  | ReadConfigurationArguments i =>
      (0 <= i < array_size (img_configuration_arguments m))%Z
  | ReadThreadModel i =>
      (0 <= i < array_size (img_thread_model m))%Z
  | ReadOptionName i | ReadOptionValue i =>
      (0 <= i < array_size (img_configure_default_options m))%Z
  end.

(** One access: the image after it and what it returned. *)
Definition step (m : image) (a : access) : image * option read_result :=
  (m, read m a).

(** A sequence of accesses, threading the image. *)
Fixpoint run (m : image) (ops : list access) : image * list (option read_result) :=
  match ops with
  | [] => (m, [])
  | a :: rest =>
      let (m1, r) := step m a in
      let (m2, rs) := run m1 rest in
      (m2, r :: rs)
  end.

(** The table read as a map: the value of the first entry called [n]. *)
Fixpoint lookup (n : string) (t : list option_entry) : option string :=
  match t with
  | [] => None
  | e :: rest => if String.eqb (name e) n then Some (value e) else lookup n rest
  end.

(** ** Reading the recorded command line *)

(** [p] is an initial segment of [s]; what follows it. *)
Fixpoint strip_prefix (p s : string) : option string :=
  match p, s with
  | EmptyString, _ => Some s
  | String _ _, EmptyString => None
  | String a p', String b s' =>
      if Ascii.eqb a b then strip_prefix p' s' else None
  end.

(** [p] occurs somewhere in [s]. *)
Fixpoint occurs (p s : string) : bool :=
  match strip_prefix p s with
  | Some _ => true
  | None =>
      match s with
      | EmptyString => false
      | String _ s' => occurs p s'
      end
  end.

Definition space : ascii := " "%char.
Definition quote : ascii := "'"%char.

Definition push_word (w : string) (ws : list string) : list string :=
  match w with
  | EmptyString => ws
  | _ => w :: ws
  end.

(** The words of a command line as the shell splits it: spaces separate
    words except between single quotes; [w] is the word being read and
    [quoted] tells whether a quote is open.  The quotes stay in the
    word. *)
Fixpoint shell_words_from (quoted : bool) (w : string) (s : string) : list string :=
  match s with
  | EmptyString => push_word w []
  | String c rest =>
      if Ascii.eqb c quote then
        shell_words_from (negb quoted) (w ++ String c EmptyString) rest
      else if Ascii.eqb c space && negb quoted then
        push_word w (shell_words_from false EmptyString rest)
      else
        shell_words_from quoted (w ++ String c EmptyString) rest
  end.

Definition shell_words (s : string) : list string :=
  shell_words_from false EmptyString s.

(** The values given to the option [flag] on a command line: what follows
    [flag=] in each word that starts with it. *)
Fixpoint flag_values (flag : string) (words : list string) : list string :=
  match words with
  | [] => []
  | w :: rest =>
      match strip_prefix (flag ++ "=") w with
      | Some v => v :: flag_values flag rest
      | None => flag_values flag rest
      end
  end.

(** The words recorded in [configuration_arguments]. *)
Definition configure_words : list string :=
  shell_words (c_string configuration_arguments).

(** The configure command line of the build, word by word. *)
Definition recorded_command_line : list string :=
  [ "/home/buildozer/aports/main/gcc/src/gcc-14.2.0/configure";
    "--prefix=/usr";
    "--mandir=/usr/share/man";
    "--infodir=/usr/share/info";
    "--build=armv7-alpine-linux-musleabihf";
    "--host=armv7-alpine-linux-musleabihf";
    "--target=armv7-alpine-linux-musleabihf";
    "--enable-checking=release";
    "--disable-cet";
    "--disable-fixed-point";
    "--disable-libstdcxx-pch";
    "--disable-multilib";
    "--disable-nls";
    "--disable-werror";
    "--disable-symvers";
    "--enable-__cxa_atexit";
    "--enable-default-pie";
    "--enable-default-ssp";
    "--enable-languages=c,c++,objc,go,fortran,ada";
    "--enable-link-serialization=2";
    "--enable-linker-build-id";
    "--with-arch=armv7-a";
    "--with-tune=generic-armv7-a";
    "--with-fpu=vfpv3-d16";
    "--with-float=hard";
    "--with-abi=aapcs-linux";
    "--with-mode=thumb";
    "--disable-libquadmath";
    "--disable-libssp";
    "--disable-libsanitizer";
    "--enable-shared";
    "--enable-threads";
    "--enable-tls";
    "--disable-libitm";
    "--with-bugurl=https://gitlab.alpinelinux.org/alpine/aports/-/issues";
    "--with-system-zlib";
    "--with-linker-hash-style=gnu";
    "--with-pkgversion='Alpine 14.2.0'" ].

(** The three machine triples of a configure run. *)
Record triples : Set := mk_triples {
  build_triple : list string;
  host_triple : list string;
  target_triple : list string
}.

Definition triples_of (words : list string) : triples :=
  mk_triples (flag_values "--build" words)
             (flag_values "--host" words)
             (flag_values "--target" words).

(** A cross build: build, host and target are not all the same triple. *)
Definition all_same_triple (t : triples) : Prop :=
  build_triple t = host_triple t /\ host_triple t = target_triple t.

Definition cross_build (t : triples) : Prop := ~ all_same_triple t.

(** Modelled from the spec: the set of thread-model names the toolchain
    defines is not part of configargs.h.  The spec calls it a small fixed
    set of toolchain-defined model names and names "posix"; the names
    are those GCC 14 accepts for its thread file. *)
Definition thread_model_names : list string :=
  [ "aix"; "dce"; "lynx"; "mipssde"; "posix"; "rtems";
    "single"; "tpf"; "vxworks"; "win32"; "mcf" ].

(** The option identifiers of the defaults table. *)
Definition option_names : list string :=
  [ "abi"; "cpu"; "arch"; "tune"; "float"; "mode"; "fpu"; "tls" ].

(** The defaults that are given on the command line by a [--with-] flag. *)
Definition with_flag_names : list string :=
  [ "abi"; "arch"; "tune"; "float"; "mode"; "fpu" ].

Definition with_flag (n : string) : string := "--with-" ++ n.

(** ** Options given more than once *)

Definition equals_sign : ascii := "="%char.

(** The longest initial segment two words share. *)
Fixpoint common_prefix (a b : string) : string :=
  match a, b with
  | String x a', String y b' =>
      if Ascii.eqb x y then String x (common_prefix a' b') else EmptyString
  | _, _ => EmptyString
  end.

Fixpoint has_char (c : ascii) (s : string) : bool :=
  match s with
  | EmptyString => false
  | String x rest => Ascii.eqb x c || has_char c rest
  end.

(** Two words give a value to one and the same option: they agree up to
    and including an equals sign. *)
Definition same_option (a b : string) : bool :=
  has_char equals_sign (common_prefix a b).

(** No two words of the command line give a value to the same option. *)
Fixpoint options_once (words : list string) : bool :=
  match words with
  | [] => true
  | w :: rest =>
      forallb (fun w' => negb (same_option w w')) rest && options_once rest
  end.

(** * Properties *)

(** ** Arrays and indexing *)

Section Arrays.
Context {A : Type}.
Implicit Types (a : list A) (i : Z).

Lemma index_nth_error a i :
  (0 <= i)%Z -> index a i = nth_error a (Z.to_nat i).
Proof.
  intros Hi. unfold index.
  destruct (Z.ltb_spec i 0) as [Hneg | _]; [lia | reflexivity].
Qed.

Lemma index_in_bounds a i :
  (0 <= i < array_size a)%Z -> exists x, index a i = Some x.
Proof.
  unfold array_size. intros [Hlo Hhi].
  rewrite index_nth_error by assumption.
  destruct (nth_error a (Z.to_nat i)) as [x | ] eqn:E.
  - exists x. reflexivity.
  - apply nth_error_None in E. lia.
Qed.

Lemma index_out_of_bounds a i :
  ~ (0 <= i < array_size a)%Z -> index a i = None.
Proof.
  unfold array_size, index. intros Hout.
  destruct (Z.ltb_spec i 0) as [Hneg | Hpos]; [reflexivity | ].
  apply nth_error_None. lia.
Qed.

Lemma index_Some_iff a i :
  (exists x, index a i = Some x) <-> (0 <= i < array_size a)%Z.
Proof.
  split.
  - intros [x Hx].
    destruct (Z_lt_dec i 0) as [Hneg | Hpos].
    + rewrite index_out_of_bounds in Hx by lia. discriminate.
    + destruct (Z_lt_dec i (array_size a)) as [Hin | Hout]; [lia | ].
      rewrite index_out_of_bounds in Hx by lia. discriminate.
  - apply index_in_bounds.
Qed.
End Arrays.

(** ** Character arrays made from literals *)

Section CStrings.
Implicit Types (lit : string) (a : list ascii).

Lemma char_array_size lit :
  array_size (char_array lit) = (Z.of_nat (String.length lit) + 1)%Z.
Proof.
  unfold array_size, char_array.
  rewrite length_app. simpl.
  replace (List.length (list_ascii_of_string lit)) with (String.length lit).
  - lia.
  - induction lit as [ | c lit IH]; simpl; congruence.
Qed.

Lemma char_array_null_terminated lit : null_terminated (char_array lit).
Proof.
  unfold null_terminated.
  rewrite index_nth_error by (rewrite char_array_size; lia).
  rewrite char_array_size.
  replace (Z.to_nat (Z.of_nat (String.length lit) + 1 - 1)) with (String.length lit) by lia.
  unfold char_array.
  induction lit as [ | c lit IH]; simpl; [reflexivity | exact IH].
Qed.

Lemma strlen_char_array lit :
  no_nul lit = true -> strlen (char_array lit) = Some (String.length lit).
Proof.
  unfold char_array.
  induction lit as [ | c lit IH]; simpl; intros Hn.
  - reflexivity.
  - apply andb_true_iff in Hn. destruct Hn as [Hc Hrest].
    destruct (Ascii.eqb c NUL); [discriminate | ].
    rewrite (IH Hrest). reflexivity.
Qed.

Lemma c_string_char_array lit :
  no_nul lit = true -> c_string (char_array lit) = lit.
Proof.
  unfold char_array.
  induction lit as [ | c lit IH]; simpl; intros Hn.
  - reflexivity.
  - apply andb_true_iff in Hn. destruct Hn as [Hc Hrest].
    destruct (Ascii.eqb c NUL); [discriminate | ].
    rewrite (IH Hrest). reflexivity.
Qed.

(** What [strlen] returns is the position of the first NUL. *)
Lemma strlen_first_NUL a : forall n,
  strlen a = Some n ->
  nth_error a n = Some NUL /\
  forall k, (k < n)%nat -> exists c, nth_error a k = Some c /\ c <> NUL.
Proof.
  induction a as [ | c a IH]; simpl; intros n Hn; [discriminate | ].
  destruct (Ascii.eqb_spec c NUL) as [-> | Hc].
  - injection Hn as <-. split; [reflexivity | intros k Hk; lia].
  - destruct (strlen a) as [m | ]; simpl in Hn; [ | discriminate].
    injection Hn as <-.
    destruct (IH m eq_refl) as [Hat Hbefore].
    split; [exact Hat | ].
    intros [ | k] Hk; simpl.
    + exists c. split; [reflexivity | exact Hc].
    + apply Hbefore. lia.
Qed.

(** The scan ends inside every array that holds a NUL. *)
Lemma strlen_terminates a :
  In NUL a -> exists n, strlen a = Some n /\ (n < List.length a)%nat.
Proof.
  induction a as [ | c a IH]; simpl; intros Hin; [contradiction | ].
  destruct (Ascii.eqb_spec c NUL) as [-> | Hc].
  - exists 0%nat. split; [reflexivity | lia].
  - destruct Hin as [Heq | Hin]; [congruence | ].
    destruct (IH Hin) as (n & Hn & Hlt).
    exists (S n). rewrite Hn. split; [reflexivity | lia].
Qed.
End CStrings.

(** ** Prefixes and occurrences *)

Lemma strip_prefix_Some p : forall s r,
  strip_prefix p s = Some r <-> s = p ++ r.
Proof.
  induction p as [ | a p IH]; intros s r; simpl.
  - split; [intros [= ->] | intros ->]; reflexivity.
  - destruct s as [ | b s]; [split; discriminate | ].
    destruct (Ascii.eqb_spec a b) as [-> | Hab].
    + rewrite IH. split; [intros -> | intros [= ->]]; reflexivity.
    + split; [discriminate | intros [= Hba _]; congruence].
Qed.

Lemma occurs_true p : forall s,
  occurs p s = true <-> exists a b, s = a ++ p ++ b.
Proof.
  induction s as [ | c s IH].
  - cbn [occurs]. destruct (strip_prefix p EmptyString) as [r | ] eqn:E.
    + apply strip_prefix_Some in E.
      split; [intros _; exists EmptyString, r; exact E | reflexivity].
    + split; [discriminate | ].
      intros (a & b & Hab). destruct a as [ | x a]; [ | discriminate].
      apply (proj2 (strip_prefix_Some p _ b)) in Hab. congruence.
  - cbn [occurs]. destruct (strip_prefix p (String c s)) as [r | ] eqn:E.
    + apply strip_prefix_Some in E.
      split; [intros _; exists EmptyString, r; exact E | reflexivity].
    + rewrite IH. split.
      * intros (a & b & ->). exists (String c a), b. reflexivity.
      * intros (a & b & Hab). destruct a as [ | x a].
        -- apply (proj2 (strip_prefix_Some p _ b)) in Hab. congruence.
        -- injection Hab as _ ->. exists a, b. reflexivity.
Qed.

(** ** Accesses leave the image as it is *)

Lemma run_image : forall ops m, fst (run m ops) = m.
Proof.
  induction ops as [ | a ops IH]; intros m; simpl; [reflexivity | ].
  specialize (IH m). destruct (run m ops) as [m2 rs]. exact IH.
Qed.

Lemma run_results : forall ops m, snd (run m ops) = map (read m) ops.
Proof.
  induction ops as [ | a ops IH]; intros m; simpl; [reflexivity | ].
  specialize (IH m). destruct (run m ops) as [m2 rs]. simpl in *.
  rewrite IH. reflexivity.
Qed.

Lemma read_in_bounds m a :
  in_bounds m a -> exists r, read m a = Some r.
Proof.
  destruct a as [i | i | i | i]; simpl; intros Hb;
    destruct (index_in_bounds _ _ Hb) as [x ->]; simpl; eauto.
Qed.

Lemma read_out_of_bounds m a :
  ~ in_bounds m a -> read m a = None.
Proof.
  destruct a as [i | i | i | i]; simpl; intros Hb;
    rewrite (index_out_of_bounds _ _ Hb); reflexivity.
Qed.

(** ** The table as a map *)

Lemma lookup_In n : forall t v,
  lookup n t = Some v -> In (mk_option n v) t.
Proof.
  induction t as [ | [n0 v0] t IH]; simpl; intros v Hl; [discriminate | ].
  destruct (String.eqb_spec n0 n) as [-> | Hne].
  - injection Hl as ->. left. reflexivity.
  - right. apply IH. exact Hl.
Qed.

Lemma In_lookup n : forall t v,
  NoDup (map name t) -> In (mk_option n v) t -> lookup n t = Some v.
Proof.
  induction t as [ | [n0 v0] t IH]; simpl; intros v Hnd Hin; [contradiction | ].
  inversion Hnd as [ | x l Hnotin Hnd' ]; subst.
  destruct Hin as [Heq | Hin].
  - injection Heq as -> ->. rewrite String.eqb_refl. reflexivity.
  - destruct (String.eqb_spec n0 n) as [-> | Hne].
    + exfalso. apply Hnotin. change n with (name (mk_option n v)).
      apply in_map. exact Hin.
    + apply IH; assumption.
Qed.

(** Case analysis on membership in a list written out in full. *)
Ltac each_member H :=
  simpl in H;
  repeat (destruct H as [<- | H]);
  try contradiction.

Lemma configure_default_options_NoDup :
  NoDup (map name configure_default_options).
Proof.
  simpl.
  repeat (constructor; [simpl; intuition discriminate | ]).
  constructor.
Qed.

(** * The recorded data *)

(** C1: the table [configure_default_options] holds exactly eight
    (name, value) entries, in this order: ("abi","aapcs-linux"),
    ("cpu","arm10e"), ("arch","armv7-a"), ("tune","generic-armv7-a"),
    ("float","hard"), ("mode","thumb"), ("fpu","vfpv3-d16"),
    ("tls","gnu"), and no others. *)
Theorem configure_default_options_entries :
  map (fun e => (name e, value e)) configure_default_options =
    [ ("abi", "aapcs-linux"); ("cpu", "arm10e"); ("arch", "armv7-a");
      ("tune", "generic-armv7-a"); ("float", "hard"); ("mode", "thumb");
      ("fpu", "vfpv3-d16"); ("tls", "gnu") ] /\
  array_size configure_default_options = 8%Z /\
  index configure_default_options 8 = None.
Proof. repeat split. Qed.

(** C2: the string held in [configuration_arguments] is the recorded
    configure command line, character for character: it is the words of
    [recorded_command_line] separated by single spaces, followed by the
    terminating NUL.  In particular it contains the target triple
    armv7-alpine-linux-musleabihf and the flag --with-fpu=vfpv3-d16. *)
Theorem configuration_arguments_recorded :
  c_string configuration_arguments =
    "/home/buildozer/aports/main/gcc/src/gcc-14.2.0/configure --prefix=/usr --mandir=/usr/share/man --infodir=/usr/share/info --build=armv7-alpine-linux-musleabihf --host=armv7-alpine-linux-musleabihf --target=armv7-alpine-linux-musleabihf --enable-checking=release --disable-cet --disable-fixed-point --disable-libstdcxx-pch --disable-multilib --disable-nls --disable-werror --disable-symvers --enable-__cxa_atexit --enable-default-pie --enable-default-ssp --enable-languages=c,c++,objc,go,fortran,ada --enable-link-serialization=2 --enable-linker-build-id --with-arch=armv7-a --with-tune=generic-armv7-a --with-fpu=vfpv3-d16 --with-float=hard --with-abi=aapcs-linux --with-mode=thumb --disable-libquadmath --disable-libssp --disable-libsanitizer --enable-shared --enable-threads --enable-tls --disable-libitm --with-bugurl=https://gitlab.alpinelinux.org/alpine/aports/-/issues --with-system-zlib --with-linker-hash-style=gnu --with-pkgversion='Alpine 14.2.0'" /\
  configuration_arguments =
    char_array (String.concat " " recorded_command_line) /\
  configure_words = recorded_command_line /\
  occurs "armv7-alpine-linux-musleabihf" (c_string configuration_arguments) = true /\
  occurs "--with-fpu=vfpv3-d16" (c_string configuration_arguments) = true /\
  flag_values "--target" configure_words = ["armv7-alpine-linux-musleabihf"] /\
  flag_values "--with-fpu" configure_words = ["vfpv3-d16"].
Proof.
  split; [vm_compute; reflexivity | ].
  split; [vm_compute; reflexivity | ].
  split; [vm_compute; reflexivity | ].
  repeat split; vm_compute; reflexivity.
Qed.

(** C3: the string held in [thread_model] is "posix", and "posix" is one
    of the thread-model names of the toolchain. *)
Theorem thread_model_posix :
  c_string thread_model = "posix" /\
  thread_model = ["p"; "o"; "s"; "i"; "x"; NUL]%char /\
  In (c_string thread_model) thread_model_names.
Proof.
  split; [reflexivity | ].
  split; [reflexivity | ].
  simpl. tauto.
Qed.

(** C4, as the spec states it, fails: the recorded arguments are not a
    cross build with target armv7-alpine-linux-musleabihf, because the
    --build, --host and --target triples are one and the same. *)
Lemma configure_build_not_cross :
  ~ (cross_build (triples_of configure_words) /\
     target_triple (triples_of configure_words) =
       ["armv7-alpine-linux-musleabihf"]).
Proof.
  intros [Hcross _]. apply Hcross.
  split; vm_compute; reflexivity.
Qed.

(** C4 (amended): the header records a native GCC toolchain build for an
    ARMv7 musl-libc target: the --build, --host and --target triples
    recorded in [configuration_arguments] are each given once and are all
    the triple armv7-alpine-linux-musleabihf. *)
Theorem configure_build_native :
  all_same_triple (triples_of configure_words) /\
  build_triple (triples_of configure_words) = ["armv7-alpine-linux-musleabihf"] /\
  host_triple (triples_of configure_words) = ["armv7-alpine-linux-musleabihf"] /\
  target_triple (triples_of configure_words) = ["armv7-alpine-linux-musleabihf"] /\
  occurs "armv7" "armv7-alpine-linux-musleabihf" = true /\
  occurs "musl" "armv7-alpine-linux-musleabihf" = true.
Proof.
  split; [split; vm_compute; reflexivity | ].
  repeat split; vm_compute; reflexivity.
Qed.

(** C5: [configuration_arguments] and [thread_model] are null-terminated:
    the last element of each array is NUL, and scanning either from its
    start stops at that NUL (at 955 and at 5), inside the array. *)
Theorem strings_null_terminated :
  (null_terminated configuration_arguments /\
   List.last configuration_arguments "x"%char = NUL /\
   strlen configuration_arguments = Some 955%nat /\
   array_size configuration_arguments = 956%Z) /\
  (null_terminated thread_model /\
   List.last thread_model "x"%char = NUL /\
   strlen thread_model = Some 5%nat /\
   array_size thread_model = 6%Z).
Proof.
  split.
  - split; [apply char_array_null_terminated | ].
    repeat split; vm_compute; reflexivity.
  - split; [apply char_array_null_terminated | ].
    repeat split.
Qed.

(** C6: the names of [configure_default_options] are the fixed
    identifiers abi, cpu, arch, tune, float, mode, fpu, tls and the table
    has 8 entries; after any sequence of accesses to the image both are
    unchanged. *)
Theorem option_names_fixed : forall ops : list access,
  let m := fst (run loaded_image ops) in
  map name (img_configure_default_options m) =
    ["abi"; "cpu"; "arch"; "tune"; "float"; "mode"; "fpu"; "tls"] /\
  array_size (img_configure_default_options m) = 8%Z.
Proof.
  intros ops m. subst m. rewrite run_image.
  split; reflexivity.
Qed.

(** C7: reading the static data does not fail: every access that is
    within [configuration_arguments], [thread_model] or
    [configure_default_options] returns a value. *)
Theorem static_reads_succeed : forall a : access,
  in_bounds loaded_image a -> exists r, read loaded_image a = Some r.
Proof.
  intros a Hb. apply read_in_bounds. exact Hb.
Qed.

Lemma static_reads_succeed_witness :
  in_bounds loaded_image (ReadOptionValue 7) /\
  exists r, read loaded_image (ReadOptionValue 7) = Some r.
Proof.
  split.
  - simpl. unfold array_size. simpl. lia.
  - apply (static_reads_succeed (ReadOptionValue 7)).
    simpl. unfold array_size. simpl. lia.
Defined.

(** C9: the eight names of [configure_default_options] are pairwise
    distinct, so the table is a map: looking up any of its names yields
    one value, and it is the only value paired with that name. *)
Theorem option_names_pairwise_distinct :
  NoDup (map name configure_default_options) /\
  forall n : string, In n (map name configure_default_options) ->
    exists v, lookup n configure_default_options = Some v /\
      forall v', In (mk_option n v') configure_default_options -> v' = v.
Proof.
  split; [exact configure_default_options_NoDup | ].
  intros n Hn.
  apply in_map_iff in Hn. destruct Hn as ([n0 v] & Hname & Hin).
  simpl in Hname. subst n0.
  exists v. split.
  - apply In_lookup; [exact configure_default_options_NoDup | exact Hin].
  - intros v' Hin'.
    pose proof (In_lookup n _ v configure_default_options_NoDup Hin) as Hv.
    pose proof (In_lookup n _ v' configure_default_options_NoDup Hin') as Hv'.
    congruence.
Qed.

Lemma option_names_pairwise_distinct_witness :
  In "fpu" (map name configure_default_options) /\
  exists v, lookup "fpu" configure_default_options = Some v /\
    forall v', In (mk_option "fpu" v') configure_default_options -> v' = v.
Proof.
  split.
  - simpl. tauto.
  - apply (proj2 option_names_pairwise_distinct "fpu").
    simpl. tauto.
Defined.

(** C10: the recorded defaults agree with the recorded configure flags:
    for each name n among abi, arch, tune, float, mode, fpu the value
    paired with n in [configure_default_options] is the value of the one
    --with-n= flag in [configuration_arguments]; the cpu entry (arm10e)
    has no --with-cpu= flag there. *)
Theorem defaults_match_configure_flags :
  (forall n : string, In n ["abi"; "arch"; "tune"; "float"; "mode"; "fpu"] ->
     exists v, lookup n configure_default_options = Some v /\
               flag_values (with_flag n) configure_words = [v]) /\
  lookup "cpu" configure_default_options = Some "arm10e" /\
  flag_values (with_flag "cpu") configure_words = [] /\
  occurs "--with-cpu=" (c_string configuration_arguments) = false.
Proof.
  split.
  - intros n Hn. each_member Hn;
      vm_compute; eexists; split; reflexivity.
  - repeat split; vm_compute; reflexivity.
Qed.

Lemma defaults_match_configure_flags_witness :
  In "tune" ["abi"; "arch"; "tune"; "float"; "mode"; "fpu"] /\
  exists v, lookup "tune" configure_default_options = Some v /\
            flag_values (with_flag "tune") configure_words = [v].
Proof.
  split.
  - simpl. tauto.
  - apply (proj1 defaults_match_configure_flags "tune").
    simpl. tauto.
Defined.


(** * Further properties of the recorded data *)

(** ** An option is given at most once *)

Lemma has_char_app c : forall a b,
  has_char c (a ++ b) = has_char c a || has_char c b.
Proof.
  induction a as [ | x a IH]; intros b; simpl; [reflexivity | ].
  rewrite IH. apply orb_assoc.
Qed.

Lemma has_char_flag flag : has_char equals_sign (flag ++ "=") = true.
Proof.
  rewrite has_char_app. simpl. apply orb_true_r.
Qed.

(** The check tells a repeated option from two different ones. *)
Lemma options_once_repeat :
  options_once ["--with-fpu=vfpv3-d16"; "--with-fpu=neon"] = false /\
  options_once ["--with-fpu=vfpv3-d16"; "--with-float=hard"] = true.
Proof. split; reflexivity. Qed.

(** A prefix of two words is a prefix of what they share. *)
Lemma strip_prefix_common p : forall a b ra rb,
  strip_prefix p a = Some ra -> strip_prefix p b = Some rb ->
  exists r, common_prefix a b = p ++ r.
Proof.
  induction p as [ | x p IH]; intros a b ra rb Ha Hb.
  - exists (common_prefix a b). reflexivity.
  - destruct a as [ | y a]; [discriminate | ].
    destruct b as [ | z b]; [discriminate | ].
    simpl in Ha, Hb.
    destruct (Ascii.eqb_spec x y) as [<- | Hxy]; [ | discriminate].
    destruct (Ascii.eqb_spec x z) as [<- | Hxz]; [ | discriminate].
    destruct (IH a b ra rb Ha Hb) as [r Hr].
    exists r. simpl. rewrite Ascii.eqb_refl, Hr. reflexivity.
Qed.

Lemma same_option_of_flag flag a b va vb :
  strip_prefix (flag ++ "=") a = Some va ->
  strip_prefix (flag ++ "=") b = Some vb ->
  same_option a b = true.
Proof.
  intros Ha Hb. unfold same_option.
  destruct (strip_prefix_common _ _ _ _ _ Ha Hb) as [r ->].
  rewrite has_char_app, (has_char_flag flag). reflexivity.
Qed.

Lemma flag_values_nil flag : forall words,
  (forall w, In w words -> strip_prefix (flag ++ "=") w = None) ->
  flag_values flag words = [].
Proof.
  induction words as [ | w words IH]; intros Hnone; simpl; [reflexivity | ].
  rewrite (Hnone w (or_introl eq_refl)).
  apply IH. intros w' Hw'. apply Hnone. right. exact Hw'.
Qed.

Lemma options_once_flag_values flag : forall words,
  options_once words = true ->
  (List.length (flag_values flag words) <= 1)%nat.
Proof.
  induction words as [ | w words IH]; simpl; intros Honce; [lia | ].
  apply andb_true_iff in Honce. destruct Honce as [Hw Hrest].
  destruct (strip_prefix (flag ++ "=") w) as [v | ] eqn:E.
  - rewrite flag_values_nil; [simpl; lia | ].
    intros w' Hw'.
    destruct (strip_prefix (flag ++ "=") w') as [v' | ] eqn:E'; [ | reflexivity].
    rewrite forallb_forall in Hw. specialize (Hw w' Hw').
    rewrite (same_option_of_flag flag w w' v v' E E') in Hw. discriminate.
  - apply IH. exact Hrest.
Qed.

(** X1: no option is given twice on the recorded command line: whatever
    the flag, at most one word of [configuration_arguments] gives it a
    value. *)
Theorem configure_flags_given_once : forall flag : string,
  (List.length (flag_values flag configure_words) <= 1)%nat.
Proof.
  intros flag. apply options_once_flag_values.
  vm_compute. reflexivity.
Qed.

(** ** Defaults that are not on the command line *)

(** X2: a name of [configure_default_options] has no --with-name= word in
    [configuration_arguments] exactly when it is cpu or tls; every value
    the command line gives to --with-name is the value the table pairs
    with the name. *)
Theorem defaults_without_flag : forall n : string,
  In n (map name configure_default_options) ->
  (flag_values (with_flag n) configure_words = [] <-> n = "cpu" \/ n = "tls") /\
  (forall v, In v (flag_values (with_flag n) configure_words) ->
     lookup n configure_default_options = Some v).
Proof.
  intros n Hn. each_member Hn; split;
    try (split; [vm_compute; discriminate | intros [H | H]; discriminate]);
    try (split; [intros _; tauto | intros _; vm_compute; reflexivity]);
    intros v Hv; vm_compute in Hv;
    try contradiction;
    destruct Hv as [<- | []]; reflexivity.
Qed.

Lemma defaults_without_flag_witness :
  In "tls" (map name configure_default_options) /\
  (flag_values (with_flag "tls") configure_words = [] <-> "tls" = "cpu" \/ "tls" = "tls") /\
  (forall v, In v (flag_values (with_flag "tls") configure_words) ->
     lookup "tls" configure_default_options = Some v).
Proof.
  split.
  - simpl. tauto.
  - apply (defaults_without_flag "tls").
    simpl. tauto.
Defined.
